(** * nanorpc: the library version descriptor

    A shallow embedding of [nanorpc/version/library.h]: the struct
    [nanorpc::version::library::version] with its four static accessors
    [major], [minor], [patch] and [get_as_string], and the properties its
    specification states about them. *)

From Stdlib Require Import ZArith List String Ascii Lia DecimalString.
Import ListNotations.

Local Open Scope Z_scope.

(** ** Calls and their outcomes

    A C++ call runs in a program state (the [World]) and either returns a
    value, leaving a state behind, or leaves by an exception.  The state is
    kept abstract: whatever a caller can observe lives in it. *)

Inductive outcome (World A : Type) : Type :=
| Returns (v : A) (w : World)
| Throws (w : World).

Arguments Returns {World A} v w.
Arguments Throws {World A} w.

Definition comp (World A : Type) : Type := World -> outcome World A.

(** [return v;] *)
Definition ret {World A : Type} (v : A) : comp World A :=
  fun w => Returns v w.

(** Sequencing: an exception of the first call skips the rest. *)
Definition bind {World A B : Type}
  (c : comp World A) (k : A -> comp World B) : comp World B :=
  fun w =>
    match c w with
    | Returns v w' => k v w'
    | Throws w' => Throws w'
    end.

Notation "x <- c ;; k" := (bind c (fun x => k))
  (at level 61, c at next level, right associativity).

Definition final_world {World A : Type} (o : outcome World A) : World :=
  match o with
  | Returns _ w => w
  | Throws w => w
  end.

Definition returned {World A : Type} (o : outcome World A) : option A :=
  match o with
  | Returns v _ => Some v
  | Throws _ => None
  end.

(** ** The C++ values the header uses *)

(** [int]: a 32-bit two's complement integer, carried by [Z]. *)
Definition int_min : Z := - 2 ^ 31.
Definition int_max : Z := 2 ^ 31 - 1.

Definition is_int (n : Z) : bool := (int_min <=? n) && (n <=? int_max).

(** [char const*]: the null pointer, or a pointer to the first element of a
    character array of static storage.  A string literal is such an array:
    its characters followed by the terminating NUL.  The array is read-only,
    so the pointer carries its contents. *)
Inductive char_const_ptr : Type :=
| null_ptr
| array_ptr (chars : list ascii).

Definition NUL : ascii := Ascii.zero.

Definition string_literal (s : string) : char_const_ptr :=
  array_ptr (list_ascii_of_string s ++ [NUL]).

Definition is_null (p : char_const_ptr) : bool :=
  match p with
  | null_ptr => true
  | array_ptr _ => false
  end.

(** The characters before the first NUL; [None] when the array holds no NUL
    (reading on would leave the array). *)
Fixpoint chars_until_nul (cs : list ascii) : option (list ascii) :=
  match cs with
  | [] => None
  | c :: rest =>
      if Ascii.eqb c NUL then Some []
      else option_map (cons c) (chars_until_nul rest)
  end.

(** What a reader of the C string sees; nothing through a null pointer. *)
Definition c_str (p : char_const_ptr) : option string :=
  match p with
  | null_ptr => None
  | array_ptr cs => option_map string_of_list_ascii (chars_until_nul cs)
  end.

(** [std::strlen] *)
Definition strlen (p : char_const_ptr) : option nat :=
  match p with
  | null_ptr => None
  | array_ptr cs => option_map (@List.length ascii) (chars_until_nul cs)
  end.

(** ** struct version *)

Module version.

(** [static constexpr int major() noexcept { return 1; }] *)
Definition major {World : Type} : comp World Z := ret 1.

(** [static constexpr int minor() noexcept { return 1; }] *)
Definition minor {World : Type} : comp World Z := ret 1.

(** [static constexpr int patch() noexcept { return 1; }] *)
Definition patch {World : Type} : comp World Z := ret 1.

(** [static constexpr char const* get_as_string() noexcept
    { return "1.1.1"; }] *)
Definition get_as_string {World : Type} : comp World char_const_ptr :=
  ret (string_literal "1.1.1").

End version.

(** ** Callers

    A caller invokes the accessors one after another, in any order it likes,
    and keeps what each call returned. *)

Inductive accessor : Type := Major | Minor | Patch | GetAsString.

Inductive value : Type :=
| VInt (n : Z)
| VPtr (p : char_const_ptr).

Definition call {World : Type} (a : accessor) : comp World value :=
  match a with
  | Major => n <- version.major ;; ret (VInt n)
  | Minor => n <- version.minor ;; ret (VInt n)
  | Patch => n <- version.patch ;; ret (VInt n)
  | GetAsString => p <- version.get_as_string ;; ret (VPtr p)
  end.

Fixpoint run {World : Type} (prog : list accessor) : comp World (list value) :=
  match prog with
  | [] => ret []
  | a :: rest =>
      v <- call a ;;
      vs <- run rest ;;
      ret (v :: vs)
  end.

(** ** The display form the specification asks for

    Follows the specification's words, not the header: the decimal rendering
    of the major number, a dot, that of the minor number, a dot, that of the
    patch number, and nothing else. *)

Definition decimal (n : Z) : string := NilZero.string_of_int (Z.to_int n).

Definition spec_display (major minor patch : Z) : string :=
  (decimal major ++ "." ++ decimal minor ++ "." ++ decimal patch)%string.

(** * Properties *)

(** ** C strings *)

Fixpoint nul_free (cs : list ascii) : bool :=
  match cs with
  | [] => true
  | c :: rest => negb (Ascii.eqb c NUL) && nul_free rest
  end.

Lemma chars_until_nul_literal (cs : list ascii) :
  nul_free cs = true -> chars_until_nul (cs ++ [NUL]) = Some cs.
Proof.
  induction cs as [|c rest IH]; simpl; intros Hfree.
  - reflexivity.
  - apply andb_prop in Hfree as [Hc Hrest].
    destruct (Ascii.eqb c NUL); [discriminate|].
    now rewrite (IH Hrest).
Qed.

Lemma c_str_string_literal (s : string) :
  nul_free (list_ascii_of_string s) = true ->
  c_str (string_literal s) = Some s.
Proof.
  intros Hfree. unfold c_str, string_literal.
  rewrite (chars_until_nul_literal _ Hfree). simpl.
  now rewrite string_of_list_ascii_of_string.
Qed.

Lemma length_list_ascii_of_string (s : string) :
  List.length (list_ascii_of_string s) = String.length s.
Proof.
  induction s as [|c s IH]; simpl; congruence.
Qed.

Lemma strlen_string_literal (s : string) :
  nul_free (list_ascii_of_string s) = true ->
  strlen (string_literal s) = Some (String.length s).
Proof.
  intros Hfree. unfold strlen, string_literal.
  rewrite (chars_until_nul_literal _ Hfree). simpl.
  now rewrite length_list_ascii_of_string.
Qed.

Lemma strlen_c_str (p : char_const_ptr) (s : string) :
  c_str p = Some s -> strlen p = Some (String.length s).
Proof.
  destruct p as [|cs]; simpl; [discriminate|].
  destruct (chars_until_nul cs) as [l|]; simpl; [|discriminate].
  intros [= <-]. f_equal.
  rewrite <- length_list_ascii_of_string.
  now rewrite list_ascii_of_string_of_list_ascii.
Qed.

(** ** One call *)

(** The literal the header returns holds no NUL of its own. *)
Lemma version_literal_nul_free :
  nul_free (list_ascii_of_string "1.1.1") = true.
Proof. reflexivity. Qed.

(** Every accessor returns one value, the same in every program state of
    every program, and hands the state back as it got it. *)
Lemma call_pure (a : accessor) :
  exists v : value,
    forall (World : Type) (w : World), call a w = Returns v w.
Proof.
  destruct a; eexists; intros World w; unfold call, bind; simpl; reflexivity.
Qed.

(** The numbers the header returns are representable [int]s, so carrying
    them in [Z] loses nothing. *)
Lemma version_numbers_are_ints (World : Type) (w : World) :
  forall n : Z,
    In (Some n) [returned (version.major w);
                 returned (version.minor w);
                 returned (version.patch w)] ->
    is_int n = true.
Proof.
  intros n [H | [H | [H | []]]]; injection H as <-; reflexivity.
Qed.

(** ** Sequences of calls *)

Section Calls.

Variable World : Type.

Lemma bind_returns {A B : Type} (c : comp World A) (k : A -> comp World B)
      (v : A) (w w' : World) :
  c w = Returns v w' -> bind c k w = k v w'.
Proof.
  intros Hc. unfold bind. now rewrite Hc.
Qed.

Lemma run_cons (a : accessor) (rest : list accessor) (v : value)
      (vs : list value) (w : World) :
  call a w = Returns v w ->
  run rest w = Returns vs w ->
  run (a :: rest) w = Returns (v :: vs) w.
Proof.
  intros Ha Hrest. simpl.
  rewrite (bind_returns _ _ _ _ _ Ha).
  rewrite (bind_returns _ _ _ _ _ Hrest).
  reflexivity.
Qed.

(** A sequence of calls returns, leaves the state as it found it, and its
    i-th result is what that accessor returns when called alone. *)
Lemma run_pure (prog : list accessor) (w : World) :
  exists vs : list value,
    run prog w = Returns vs w /\
    List.length vs = List.length prog /\
    forall (i : nat) (a : accessor),
      nth_error prog i = Some a ->
      exists v : value,
        nth_error vs i = Some v /\ call a w = Returns v w.
Proof.
  induction prog as [|a rest IH].
  - exists []. repeat split. intros [|i] a; discriminate.
  - destruct IH as (vs & Hrun & Hlen & Hnth).
    destruct (call_pure a) as [v Hv].
    exists (v :: vs). split; [|split].
    + apply run_cons; [apply Hv | exact Hrun].
    + simpl. now rewrite Hlen.
    + intros [|i] b Hb; simpl in Hb.
      * injection Hb as <-. exists v. split; [reflexivity | apply Hv].
      * apply (Hnth i b Hb).
Qed.

End Calls.

(** ** The claims of the specification *)

(** C1: whatever the program states the four calls are made in, the string
    [get_as_string] returns reads as the decimal rendering of what [major]
    returns, a dot, that of [minor], a dot, that of [patch], and nothing
    else. *)
Theorem display_consistent (World : Type) (w1 w2 w3 w4 : World) :
  exists (M m p : Z) (s : char_const_ptr),
    version.major w1 = Returns M w1 /\
    version.minor w2 = Returns m w2 /\
    version.patch w3 = Returns p w3 /\
    version.get_as_string w4 = Returns s w4 /\
    c_str s = Some (spec_display M m p).
Proof.
  exists 1, 1, 1, (string_literal "1.1.1").
  do 4 (split; [reflexivity|]).
  rewrite (c_str_string_literal _ version_literal_nul_free).
  reflexivity.
Qed.

(** C2: [get_as_string] returns, on every call, a pointer to a C string that
    reads exactly "1.1.1". *)
Theorem get_as_string_returns_1_1_1 (World : Type) (w : World) :
  exists s : char_const_ptr,
    version.get_as_string w = Returns s w /\
    c_str s = Some "1.1.1"%string.
Proof.
  exists (string_literal "1.1.1"). split.
  - reflexivity.
  - apply c_str_string_literal, version_literal_nul_free.
Qed.

(** C3: on every call [major] returns 1, [minor] returns 1 and [patch]
    returns 1; being functions of the state, they return nothing else. *)
Theorem accessors_return_one (World : Type) (w : World) :
  version.major w = Returns 1 w /\
  version.minor w = Returns 1 w /\
  version.patch w = Returns 1 w.
Proof.
  repeat split.
Qed.

(** C4: in any sequence of accessor calls, started in any program state, two
    invocations of the same accessor return identical results, wherever they
    stand in the sequence and whatever is called between them. *)
Theorem accessors_deterministic (World : Type) (prog : list accessor)
        (w : World) (i j : nat) (a : accessor) :
  nth_error prog i = Some a ->
  nth_error prog j = Some a ->
  exists (vs : list value) (v : value),
    returned (run prog w) = Some vs /\
    nth_error vs i = Some v /\
    nth_error vs j = Some v.
Proof.
  intros Hi Hj.
  destruct (run_pure World prog w) as (vs & Hrun & _ & Hnth).
  destruct (Hnth i a Hi) as (vi & Hvi & Hcalli).
  destruct (Hnth j a Hj) as (vj & Hvj & Hcallj).
  assert (vi = vj) as <- by congruence.
  exists vs, vi. rewrite Hrun. repeat split; assumption.
Qed.

Lemma accessors_deterministic_witness :
  nth_error [Major; GetAsString; Minor; Major; Patch] 0 = Some Major /\
  nth_error [Major; GetAsString; Minor; Major; Patch] 3 = Some Major /\
  exists (vs : list value) (v : value),
    returned (run [Major; GetAsString; Minor; Major; Patch] 7%nat) = Some vs /\
    nth_error vs 0 = Some v /\
    nth_error vs 3 = Some v.
Proof.
  split; [reflexivity|]. split; [reflexivity|].
  apply (accessors_deterministic nat
           [Major; GetAsString; Minor; Major; Patch] 7%nat 0 3 Major);
    reflexivity.
Defined.

(** C5: none of the four operations can fail: in every program state each of
    them returns a value, none leaves by an exception, and so does every
    sequence of them. *)
Theorem accessors_total (World : Type) (w : World) :
  (exists n : Z, returned (version.major w) = Some n) /\
  (exists n : Z, returned (version.minor w) = Some n) /\
  (exists n : Z, returned (version.patch w) = Some n) /\
  (exists p : char_const_ptr, returned (version.get_as_string w) = Some p) /\
  (forall a : accessor, exists v : value, returned (call a w) = Some v) /\
  (forall prog : list accessor,
      exists vs : list value, returned (run prog w) = Some vs).
Proof.
  repeat split; try (eexists; reflexivity).
  - intros a. destruct (call_pure a) as [v Hv]. exists v. now rewrite Hv.
  - intros prog. destruct (run_pure World prog w) as (vs & Hrun & _).
    exists vs. now rewrite Hrun.
Qed.

(** C6: the numbers [major], [minor] and [patch] return are non-negative on
    every call. *)
Theorem numbers_nonnegative (World : Type) (w : World) :
  exists M m p : Z,
    version.major w = Returns M w /\
    version.minor w = Returns m w /\
    version.patch w = Returns p w /\
    0 <= M /\ 0 <= m /\ 0 <= p.
Proof.
  exists 1, 1, 1. repeat split; lia.
Qed.

(** C7: the four operations are pure reads: a call of any of them, and any
    sequence of such calls however long, leaves the program state exactly as
    it was. *)
Theorem accessors_pure (World : Type) (w : World) :
  final_world (version.major w) = w /\
  final_world (version.minor w) = w /\
  final_world (version.patch w) = w /\
  final_world (version.get_as_string w) = w /\
  (forall a : accessor, final_world (call a w) = w) /\
  (forall prog : list accessor, final_world (run prog w) = w).
Proof.
  repeat split.
  - intros a. destruct (call_pure a) as [v Hv]. now rewrite Hv.
  - intros prog. destruct (run_pure World prog w) as (vs & Hrun & _).
    now rewrite Hrun.
Qed.

(** C9: [get_as_string] returns a pointer that is not null, to a C string
    that is not empty: its length is exactly 5, hence at least 1. *)
Theorem get_as_string_nonnull_nonempty (World : Type) (w : World) :
  exists (s : char_const_ptr) (n : nat),
    version.get_as_string w = Returns s w /\
    is_null s = false /\
    strlen s = Some n /\
    n = 5%nat /\
    (1 <= n)%nat.
Proof.
  exists (string_literal "1.1.1"), 5%nat.
  split; [reflexivity|]. split; [reflexivity|]. split.
  - apply (strlen_string_literal "1.1.1"), version_literal_nul_free.
  - split; [reflexivity | lia].
Qed.

(** C10: the numbers [major], [minor] and [patch] return are strictly
    positive on every call, so the version 0.0.0 is never reported. *)
Theorem numbers_positive (World : Type) (w : World) :
  exists M m p : Z,
    version.major w = Returns M w /\
    version.minor w = Returns m w /\
    version.patch w = Returns p w /\
    0 < M /\ 0 < m /\ 0 < p.
Proof.
  exists 1, 1, 1. repeat split; lia.
Qed.
